(** * The delete command of the typing package

    A shallow embedding of [packages/ckeditor5-typing/src/deletecommand.js]
    ([DeleteCommand.execute] and its two private helpers) together with the
    part of the engine's document model that the command reads and writes. *)

From Stdlib Require Import ZArith Lia Ascii String List.
From stdpp Require Import base list strings.
Import ListNotations.

Local Open Scope nat_scope.
Local Open Scope list_scope.

Set Warnings "-register-all".

(** * The document model the command works on *)

Module Model.

(** Modelled from the spec: the document tree (engine [model/element],
    [model/text]) is not among the sources.  The tree is kept at the
    granularity of offsets: every character occupies one offset of its parent,
    exactly as an element does, so a position's offset indexes the children. *)
Inductive Node : Type :=
| Text (c : ascii)
| Element (name : string) (children : list Node).

Definition nodeName (n : Node) : option string :=
  match n with
  | Text _ => None
  | Element nm _ => Some nm
  end.

Definition nodeChildren (n : Node) : list Node :=
  match n with
  | Text _ => []
  | Element _ cs => cs
  end.

(** A path of child offsets leading from the root to a node. *)
Definition Path := list nat.

Fixpoint getNodeByPath (n : Node) (p : Path) : option Node :=
  match p with
  | [] => Some n
  | i :: p' =>
      match nodeChildren n !! i with
      | Some c => getNodeByPath c p'
      | None => None
      end
  end.

(** [element.maxOffset] of the element found at [p]. *)
Definition maxOffsetAt (root : Node) (p : Path) : nat :=
  match getNodeByPath root p with
  | Some n => length (nodeChildren n)
  | None => 0
  end.

(** Rewrites the child list of the element found at [p]. *)
Fixpoint updateChildren (f : list Node -> list Node) (p : Path) (n : Node) : Node :=
  match n with
  | Text _ => n
  | Element nm cs =>
      match p with
      | [] => Element nm (f cs)
      | i :: p' => Element nm (alter (updateChildren f p') i cs)
      end
  end.

(** ** Positions *)

(** Modelled from the spec: the position class ([model/position]) is not
    among the sources.  A position is its path: the path of the parent
    element followed by the offset inside that parent. *)
Definition Position := list nat.

Definition offset (p : Position) : nat := List.last p 0.
Definition parentPath (p : Position) : Path := removelast p.

(** The second argument of [Position.createAt]: absent, ['end'], or a number. *)
Inductive OffsetSpec := AtStart | AtEnd | AtOffset (n : nat).

(** Modelled from the spec: [Position.createAt( element )] and
    [Position.createAt( element, 'end' )] of the absent position class; the
    element is named by its path. *)
Definition createAt (root : Node) (element : Path) (o : OffsetSpec) : Position :=
  match o with
  | AtStart => element ++ [0]
  | AtEnd => element ++ [maxOffsetAt root element]
  | AtOffset n => element ++ [n]
  end.

Definition getShiftedBy (p : Position) (shift : nat) : Position :=
  parentPath p ++ [offset p + shift].

(** [pos.path = pos.path.slice( 0, -1 )]. *)
Definition sliceLast (p : Position) : Position := removelast p.

(** [pos.path = pos.path.slice( 0, -1 ); pos.offset++]. *)
Definition stepOut (p : Position) : Position :=
  getShiftedBy (sliceLast p) 1.

(** Modelled from the spec: document order of positions, a prefix coming
    before its extensions (the absent [position.compareWith]). *)
Fixpoint compareWith (a b : Position) : comparison :=
  match a, b with
  | [], [] => Eq
  | [], _ :: _ => Lt
  | _ :: _, [] => Gt
  | x :: a', y :: b' =>
      if Nat.eqb x y then compareWith a' b'
      else if Nat.ltb x y then Lt else Gt
  end.

Definition isBefore (a b : Position) : bool :=
  match compareWith a b with Lt => true | _ => false end.

Definition isAfter (a b : Position) : bool :=
  match compareWith a b with Gt => true | _ => false end.

Definition isEqual (a b : Position) : bool := bool_decide (a = b).

Fixpoint getCommonPath (a b : Position) : Path :=
  match a, b with
  | x :: a', y :: b' => if Nat.eqb x y then x :: getCommonPath a' b' else []
  | _, _ => []
  end.

(** Modelled from the spec: the loop of the absent [position.isTouching].
    Two positions touch when only element boundaries lie between them: the
    deeper position climbs out of its parent as long as it stands at that
    parent's edge.  Every round shortens one of the two paths, which bounds
    the number of rounds. *)
Fixpoint touchLoop (root : Node) (fuel : nat) (left right : Position) : bool :=
  match fuel with
  | 0 => false
  | S fuel' =>
      if isEqual left right then true
      else if Nat.ltb (length right) (length left) then
        if Nat.eqb (offset left) (maxOffsetAt root (parentPath left))
        then touchLoop root fuel' (stepOut left) right
        else false
      else
        if Nat.eqb (offset right) 0
        then touchLoop root fuel' left (sliceLast right)
        else false
  end.

Definition isTouching (root : Node) (a b : Position) : bool :=
  match compareWith a b with
  | Eq => true
  | Lt => touchLoop root (length a + length b) a b
  | Gt => touchLoop root (length a + length b) b a
  end.

(** ** Ranges *)

(** Modelled from the spec: the range class ([model/range]) is not among the
    sources; a range is a start and an end position. *)
Record Range := mkRange { r_start : Position; r_end : Position }.

Definition rangeIsCollapsed (r : Range) : bool := isEqual (r_start r) (r_end r).

(** [Range.createIn( element )]. *)
Definition createIn (root : Node) (element : Path) : Range :=
  mkRange (createAt root element AtStart) (createAt root element AtEnd).

(** [range.getCommonAncestor()]: the deepest element holding both ends. *)
Definition getCommonAncestor (root : Node) (r : Range) : option Node :=
  getNodeByPath root
    (getCommonPath (parentPath (r_start r)) (parentPath (r_end r))).

Definition pushFlat (pos : Position) (howMany : nat) (acc : list Range) : list Range :=
  if Nat.eqb howMany 0 then acc
  else acc ++ [mkRange pos (getShiftedBy pos howMany)].

(** Modelled from the spec: the absent [range.getMinimalFlatRanges], which
    cuts a range into the sub-ranges that stay inside one parent.  First
    loop: from the start position up to the level below the common
    ancestor. *)
Fixpoint flatUp (root : Node) (diffAt fuel : nat) (pos : Position)
    (acc : list Range) : Position * list Range :=
  match fuel with
  | 0 => (pos, acc)
  | S fuel' =>
      if Nat.ltb (diffAt + 1) (length pos) then
        let howMany := maxOffsetAt root (parentPath pos) - offset pos in
        flatUp root diffAt fuel' (stepOut pos) (pushFlat pos howMany acc)
      else (pos, acc)
  end.

(** Second loop: from there down to the end position. *)
Fixpoint flatDown (fuel : nat) (rend pos : Position) (acc : list Range) : list Range :=
  match fuel with
  | 0 => acc
  | S fuel' =>
      if Nat.leb (length pos) (length rend) then
        let o := nth (length pos - 1) rend 0 in
        let howMany := o - offset pos in
        flatDown fuel' rend (parentPath pos ++ [o; 0]) (pushFlat pos howMany acc)
      else acc
  end.

Definition getMinimalFlatRanges (root : Node) (r : Range) : list Range :=
  let diffAt := length (getCommonPath (r_start r) (r_end r)) in
  let '(pos, acc) := flatUp root diffAt (length (r_start r)) (r_start r) [] in
  flatDown (S (length (r_end r))) (r_end r) pos acc.

(** ** Tree walker *)

(** Modelled from the spec: the three options of the absent tree walker that
    [execute] sets. *)
Record WalkerOptions := mkWalkerOptions {
  singleCharacters : bool;
  ignoreElementEnd : bool;
  shallow : bool
}.

Inductive WalkerItem :=
| ItemText (data : string)
| ItemElementStart (name : string)
| ItemElementEnd (name : string).

(** Items of a run of sibling nodes; neighbouring characters form one text
    item unless [single] asks for one item per character. *)
Definition walkSiblings (walk : Node -> list WalkerItem) (single : bool)
  : list Node -> list WalkerItem :=
  fix go (l : list Node) : list WalkerItem :=
    match l with
    | [] => []
    | Text c :: l' =>
        let items := go l' in
        let alone := ItemText (String c EmptyString) :: items in
        match l' with
        | Text _ :: _ =>
            match items with
            | ItemText s :: rest =>
                if single then alone else ItemText (String c s) :: rest
            | _ => alone
            end
        | _ => alone
        end
    | n :: l' => walk n ++ go l'
    end.

Fixpoint walkNode (o : WalkerOptions) (n : Node) : list WalkerItem :=
  match n with
  | Text c => [ItemText (String c EmptyString)]
  | Element nm cs =>
      ItemElementStart nm ::
        (if shallow o then []
         else walkSiblings (walkNode o) (singleCharacters o) cs
              ++ (if ignoreElementEnd o then [] else [ItemElementEnd nm]))
  end.

(** Modelled from the spec: [range.getWalker( options )] of the engine's tree
    walker, for a flat range (both ends in one parent), which is all the
    command ever walks. *)
Definition getWalker (root : Node) (o : WalkerOptions) (r : Range) : list WalkerItem :=
  let cs := match getNodeByPath root (parentPath (r_start r)) with
            | Some n => nodeChildren n
            | None => []
            end in
  walkSiblings (walkNode o) (singleCharacters o)
    (take (offset (r_end r) - offset (r_start r)) (drop (offset (r_start r)) cs)).

(** [count( iterable )] of the utils package. *)
Definition count {A} (items : list A) : nat := length items.

(** ** Selections *)

(** Modelled from the spec: the selection class ([model/selection]) is not
    among the sources.  The document selection always holds a range (the
    engine supplies a default one), and every service sets at least one, so
    the list is kept non-empty by construction. *)
Record Selection := mkSelection {
  sel_range : Range;
  sel_more : list Range;
  lastRangeBackward : bool
}.

Definition getRanges (s : Selection) : list Range := sel_range s :: sel_more s.

Definition isCollapsed (s : Selection) : bool :=
  match sel_more s with
  | [] => rangeIsCollapsed (sel_range s)
  | _ :: _ => false
  end.

Definition isBackward (s : Selection) : bool := lastRangeBackward s.

Definition getFirstRange (s : Selection) : Range :=
  fold_left (fun first r => if isBefore (r_start r) (r_start first) then r else first)
            (sel_more s) (sel_range s).

Definition getLastRange (s : Selection) : Range :=
  fold_left (fun last r => if isAfter (r_end r) (r_end last) then r else last)
            (sel_more s) (sel_range s).

Definition getFirstPosition (s : Selection) : Position := r_start (getFirstRange s).
Definition getLastPosition (s : Selection) : Position := r_end (getLastRange s).

(** [Selection.createFromSelection( other )]: a fresh selection with copies
    of the ranges and the same direction. *)
Definition createFromSelection (s : Selection) : Selection :=
  mkSelection (sel_range s) (sel_more s) (isBackward s).

(** [selection.setRanges( ranges, isLastBackward )]; an empty list leaves the
    head range in place, which no caller in this file relies on. *)
Definition setRanges (ranges : list Range) (isLastBackward : bool) (s : Selection) : Selection :=
  match ranges with
  | [] => s
  | r :: rs => mkSelection r rs isLastBackward
  end.

(** [selection.collapse( position )]. *)
Definition collapse (pos : Position) (s : Selection) : Selection :=
  setRanges [mkRange pos pos] false s.

(** ** Batch operations on the tree *)

Definition removeFlat (root : Node) (r : Range) : Node :=
  let s := offset (r_start r) in
  let howMany := offset (r_end r) - s in
  updateChildren (fun cs => take s cs ++ drop (s + howMany) cs) (parentPath (r_start r)) root.

(** Modelled from the spec: [batch.remove( range )], one removal per minimal
    flat range, last range first so that earlier ones keep their paths. *)
Definition remove (root : Node) (r : Range) : Node :=
  fold_left removeFlat (rev (getMinimalFlatRanges root r)) root.

(** Modelled from the spec: [batch.insert( position, node )]. *)
Definition insert (root : Node) (pos : Position) (n : Node) : Node :=
  updateChildren (fun cs => take (offset pos) cs ++ n :: drop (offset pos) cs)
                 (parentPath pos) root.

End Model.

(** * The change buffer *)

Module Buffer.

(** Modelled from the spec: [ChangeBuffer] ([./changebuffer]) is not among
    the sources.  It keeps a running unit count, starts a new undo step once
    the count passes the configured limit, and counts how deep it is locked. *)
Record ChangeBuffer := mkChangeBuffer {
  lockDepth : nat;
  size : nat;
  limit : nat
}.

(** Modelled from the spec: [lock()] and [unlock()] of the absent buffer
    nest by counting. *)
Definition lock (b : ChangeBuffer) : ChangeBuffer :=
  mkChangeBuffer (S (lockDepth b)) (size b) (limit b).

Definition unlock (b : ChangeBuffer) : ChangeBuffer :=
  mkChangeBuffer (lockDepth b - 1) (size b) (limit b).

(** Modelled from the spec: [input( changeCount )] of the absent buffer adds
    to the running count and starts over once the limit is passed.  The
    command only calls it while it holds the lock. *)
Definition input (changeCount : nat) (b : ChangeBuffer) : ChangeBuffer :=
  let size' := size b + changeCount in
  mkChangeBuffer (lockDepth b) (if Nat.ltb (limit b) size' then 0 else size') (limit b).

End Buffer.

(** * The command *)

Module DeleteCommand.

Import Model.
Export Buffer.

Inductive Direction := forward | backward.

(** The [options] object of [execute]; an absent key reads as [None]. *)
Record Options := mkOptions {
  opt_unit : option string;
  opt_sequence : option Z
}.

(** A model operation applied through the batch. *)
Inductive Operation :=
| OpRemove (r : Range)
| OpInsert (pos : Position) (n : Node).

(** What the command does to its collaborators, in call order. *)
Inductive Event :=
| EvLock
| EvUnlock
| EvInput (changeCount : nat)
| EvModifySelection (direction : Direction) (unit : option string)
| EvDeleteContent (selection : Selection) (doNotResetEntireContent : bool)
| EvBatch (op : Operation)
| EvSetRanges (ranges : list Range) (isLastBackward : bool)
| EvCollapse (pos : Position).

(** The editor as the command sees it: the document tree, the live document
    selection, the command's change buffer, and the calls made so far. *)
Record Editor := mkEditor {
  doc_root : Node;
  doc_selection : Selection;
  buffer : ChangeBuffer;
  trace : list Event
}.

(** The services of the engine that the command delegates to.  They are
    outside this package and the command is verified for every
    implementation of them.  [modifySelection] and [deleteContent] change
    the selection object they are handed, so they return its new value;
    [deleteContent] also changes the tree through the batch it is given and
    lets the live selection follow.  [getLimitElement] names the limit
    element by its path.  [liveRangesAfter] is how the live selection
    follows an operation applied through the batch. *)
Class Services := {
  modifySelection : Node -> Selection -> Direction -> option string -> Selection;
  deleteContent : Node -> Selection -> Selection -> bool -> Node * Selection * Selection;
  getLimitElement : Node -> Selection -> Path;
  schemaCheck : string -> option string -> bool;
  liveRangesAfter : Operation -> Selection -> Selection
}.

(** ** State passing *)

Definition M (A : Type) : Type := Editor -> A * Editor.

Definition ret {A} (a : A) : M A := fun e => (a, e).
Definition bind {A B} (m : M A) (k : A -> M B) : M B :=
  fun e => let '(a, e') := m e in k a e'.
Definition gets {A} (f : Editor -> A) : M A := fun e => (f e, e).
Definition modify (f : Editor -> Editor) : M unit := fun e => (tt, f e).

Notation "'let*' x ':=' m 'in' k" := (bind m (fun x => k))
  (at level 10, x name, m at level 100, k at level 200).
Notation "'run' m 'in' k" := (bind m (fun _ => k))
  (at level 10, m at level 100, k at level 200).

Definition result {A} (m : M A) (e : Editor) : A := fst (m e).
Definition after {A} (m : M A) (e : Editor) : Editor := snd (m e).

Definition record (ev : Event) (e : Editor) : Editor :=
  mkEditor (doc_root e) (doc_selection e) (buffer e) (trace e ++ [ev]).

Definition buffer_lock : M unit :=
  modify (fun e => record EvLock
    (mkEditor (doc_root e) (doc_selection e) (lock (buffer e)) (trace e))).

Definition buffer_unlock : M unit :=
  modify (fun e => record EvUnlock
    (mkEditor (doc_root e) (doc_selection e) (unlock (buffer e)) (trace e))).

Definition buffer_input (changeCount : nat) : M unit :=
  modify (fun e => record (EvInput changeCount)
    (mkEditor (doc_root e) (doc_selection e) (input changeCount (buffer e)) (trace e))).

(** [doc.selection.setRanges( ranges, isLastBackward )]. *)
Definition doc_setRanges (ranges : list Range) (isLastBackward : bool) : M unit :=
  modify (fun e => record (EvSetRanges ranges isLastBackward)
    (mkEditor (doc_root e) (setRanges ranges isLastBackward (doc_selection e)) (buffer e) (trace e))).

(** [doc.selection.collapse( position )]. *)
Definition doc_collapse (pos : Position) : M unit :=
  modify (fun e => record (EvCollapse pos)
    (mkEditor (doc_root e) (collapse pos (doc_selection e)) (buffer e) (trace e))).

(** [doc.enqueueChanges( callback )]: the callback runs as one change block. *)
Definition enqueueChanges {A} (callback : M A) : M A := callback.

(** [a || b] on an optional number: absent and zero are falsy. *)
Definition jsOr (a : option Z) (b : Z) : Z :=
  match a with
  | Some z => if Z.eqb z 0 then b else z
  | None => b
  end.

(** The walker options written out at the call site in [execute]. *)
Definition countingWalk : WalkerOptions :=
  {| singleCharacters := true; ignoreElementEnd := true; shallow := true |}.

Section Command.

Context `{Services}.

Definition dataController_modifySelection (sel : Selection)
    (direction : Direction) (unit : option string) : M Selection :=
  fun e => (modifySelection (doc_root e) sel direction unit,
            record (EvModifySelection direction unit) e).

Definition dataController_deleteContent (sel : Selection)
    (doNotResetEntireContent : bool) : M Selection :=
  fun e =>
    let '(root', live', sel') :=
      deleteContent (doc_root e) (doc_selection e) sel doNotResetEntireContent in
    (sel', record (EvDeleteContent sel doNotResetEntireContent)
             (mkEditor root' live' (buffer e) (trace e))).

Definition applyOperation (op : Operation) (n : Node) : Node :=
  match op with
  | OpRemove r => remove n r
  | OpInsert pos child => insert n pos child
  end.

Definition batch_apply (op : Operation) : M unit :=
  modify (fun e => record (EvBatch op)
    (mkEditor (applyOperation op (doc_root e)) (liveRangesAfter op (doc_selection e))
              (buffer e) (trace e))).

(** [this._buffer.batch.remove( range )]. *)
Definition batch_remove (r : Range) : M unit := batch_apply (OpRemove r).

(** [this._buffer.batch.insert( position, node )]. *)
Definition batch_insert (pos : Position) (n : Node) : M unit :=
  batch_apply (OpInsert pos n).

(** [limitElement.name]. *)
Definition elementName (n : Node) (element : Path) : option string :=
  match getNodeByPath n element with
  | Some el => nodeName el
  | None => None
  end.

Definition _shouldEntireContentBeReplacedWithParagraph (sequence : Z) : M bool :=
  if Z.ltb 1 sequence then ret false
  else
    let* document_root := gets doc_root in
    let* selection := gets doc_selection in
    let limitElement := getLimitElement document_root selection in
    let limitStartPosition := createAt document_root limitElement AtStart in
    let limitEndPosition := createAt document_root limitElement AtEnd in
    if negb (isTouching document_root limitStartPosition (getFirstPosition selection))
       || negb (isTouching document_root limitEndPosition (getLastPosition selection))
    then ret false
    else if negb (schemaCheck "paragraph" (elementName document_root limitElement))
    then ret false
    else if bool_decide
              (match getCommonAncestor document_root (getFirstRange selection) with
               | Some a => nodeName a
               | None => None
               end = Some "paragraph"%string)
    then ret false
    else ret true.

(** The new paragraph is named by the path it is inserted at. *)
Definition _replaceEntireContentWithParagraph : M unit :=
  let* document_root := gets doc_root in
  let* selection := gets doc_selection in
  let limitElement := getLimitElement document_root selection in
  let paragraph := Element "paragraph" [] in
  run batch_remove (createIn document_root limitElement) in
  let* document_root := gets doc_root in
  let position := createAt document_root limitElement AtStart in
  run batch_insert position paragraph in
  let* document_root := gets doc_root in
  doc_collapse (createAt document_root position AtStart).

Definition execute (direction : Direction) (options : Options) : M unit :=
  enqueueChanges (
    run buffer_lock in
    let* live := gets doc_selection in
    let selection := createFromSelection live in
    let doNotResetEntireContent := isCollapsed selection in
    let* selection :=
      (if isCollapsed selection
       then dataController_modifySelection selection direction (opt_unit options)
       else ret selection) in
    if isCollapsed selection then
      let sequence := jsOr (opt_sequence options) 1%Z in
      let* replace := _shouldEntireContentBeReplacedWithParagraph sequence in
      if replace then _replaceEntireContentWithParagraph else ret tt
    else
      let* document_root := gets doc_root in
      let changeCount :=
        fold_left
          (fun changeCount range =>
             changeCount + count (getWalker document_root countingWalk range))
          (getMinimalFlatRanges document_root (getFirstRange selection)) 0 in
      let* selection := dataController_deleteContent selection doNotResetEntireContent in
      run buffer_input changeCount in
      run doc_setRanges (getRanges selection) (isBackward selection) in
      buffer_unlock ).

End Command.

End DeleteCommand.

(** * A small engine to run the command on *)

Module Sample.

Import Model.
Import DeleteCommand.

(** A deliberately small stand-in for the engine's services, used to run
    the command on concrete documents.  The root is the only limit element,
    the schema allows a paragraph directly in the root, a collapsed selection
    is extended by one offset inside its parent when there is room, and
    content removal removes the first range and leaves a caret at its start. *)

Definition sample_modifySelection (n : Node) (sel : Selection)
    (direction : Direction) (unit : option string) : Selection :=
  let pos := getFirstPosition sel in
  match direction with
  | backward =>
      if Nat.ltb 0 (offset pos)
      then mkSelection (mkRange (parentPath pos ++ [offset pos - 1]) pos) [] true
      else sel
  | forward =>
      if Nat.ltb (offset pos) (maxOffsetAt n (parentPath pos))
      then mkSelection (mkRange pos (getShiftedBy pos 1)) [] false
      else sel
  end.

Definition sample_deleteContent (n : Node) (live sel : Selection)
    (doNotResetEntireContent : bool) : Node * Selection * Selection :=
  let r := getFirstRange sel in
  (remove n r, live, collapse (r_start r) sel).

#[export] Instance sampleServices : Services := {|
  modifySelection := sample_modifySelection;
  deleteContent := sample_deleteContent;
  getLimitElement := fun _ _ => [];
  schemaCheck := fun name inside =>
    bool_decide (name = "paragraph"%string) && bool_decide (inside = Some "$root"%string);
  liveRangesAfter := fun _ sel => sel
|}.

Definition chars (s : string) : list Node := map Text (list_ascii_of_string s).
Definition paragraph (s : string) : Node := Element "paragraph" (chars s).
Definition rootOf (children : list Node) : Node := Element "$root" children.

Definition caret (pos : Position) : Selection :=
  mkSelection (mkRange pos pos) [] false.

Definition editorOf (n : Node) (sel : Selection) : Editor :=
  mkEditor n sel (mkChangeBuffer 0 0 20) [].

(** "He[llo] World". *)
Definition helloWorld : Editor :=
  editorOf (rootOf [paragraph "Hello World"])
           (mkSelection (mkRange [0; 2] [0; 5]) [] false).

(** "<paragraph>[abc</paragraph><paragraph>def]</paragraph>". *)
Definition twoParagraphs : Editor :=
  editorOf (rootOf [paragraph "abc"; paragraph "def"])
           (mkSelection (mkRange [0; 0] [1; 3]) [] false).

(** "<heading>[]</heading>": an empty block that is not a paragraph. *)
Definition emptyHeading : Editor :=
  editorOf (rootOf [Element "heading" []]) (caret [0; 0]).

(** "<paragraph>[]</paragraph>". *)
Definition emptyParagraph : Editor :=
  editorOf (rootOf [paragraph ""]) (caret [0; 0]).

(** "<paragraph>abc[]</paragraph>". *)
Definition caretAfterAbc : Editor :=
  editorOf (rootOf [paragraph "abc"]) (caret [0; 3]).

Definition noOptions : Options := mkOptions None None.
Definition withSequence (z : Z) : Options := mkOptions None (Some z).

(** A second stand-in engine, whose limit element is the block quote that is
    the root's second child and whose schema allows a paragraph there. *)
Definition quoteServices : Services := {|
  modifySelection := sample_modifySelection;
  deleteContent := sample_deleteContent;
  getLimitElement := fun _ _ => [1];
  schemaCheck := fun name inside =>
    bool_decide (name = "paragraph"%string) && bool_decide (inside = Some "blockQuote"%string);
  liveRangesAfter := fun _ sel => sel
|}.

(** "<paragraph>abc</paragraph><blockQuote><heading>[]</heading></blockQuote>". *)
Definition emptyQuote : Editor :=
  editorOf (rootOf [paragraph "abc"; Element "blockQuote" [Element "heading" []]])
           (caret [1; 0; 0]).

End Sample.

(** * Vocabulary for stating what a run of the command did *)

Module Observations.

Import Model.
Import DeleteCommand.

Section Observations.

Context `{Services}.

(** The clone of the live selection that [execute] works on. *)
Definition workingSelection (e : Editor) : Selection :=
  createFromSelection (doc_selection e).

(** The working selection after the attempt to extend it. *)
Definition extendedSelection (direction : Direction) (options : Options)
    (e : Editor) : Selection :=
  if isCollapsed (workingSelection e)
  then modifySelection (doc_root e) (workingSelection e) direction (opt_unit options)
  else workingSelection e.

Definition extensionEvents (direction : Direction) (options : Options)
    (e : Editor) : list Event :=
  if isCollapsed (workingSelection e)
  then [EvModifySelection direction (opt_unit options)]
  else [].

(** The editor once [execute] has locked the buffer and tried to extend. *)
Definition entered (direction : Direction) (options : Options) (e : Editor) : Editor :=
  mkEditor (doc_root e) (doc_selection e) (lock (buffer e))
           (trace e ++ EvLock :: extensionEvents direction options e).

Definition limitOf (e : Editor) : Path :=
  getLimitElement (doc_root e) (doc_selection e).

(** The live selection's first position touches the limit element's start
    and its last position touches the limit element's end. *)
Definition spansLimitElement (e : Editor) : bool :=
  isTouching (doc_root e) (createAt (doc_root e) (limitOf e) AtStart)
             (getFirstPosition (doc_selection e))
  && isTouching (doc_root e) (createAt (doc_root e) (limitOf e) AtEnd)
                (getLastPosition (doc_selection e)).

(** The schema permits a paragraph inside the limit element. *)
Definition paragraphAllowed (e : Editor) : bool :=
  schemaCheck "paragraph" (elementName (doc_root e) (limitOf e)).

(** The common ancestor of the live selection's first range is a paragraph. *)
Definition commonAncestorIsParagraph (e : Editor) : bool :=
  bool_decide
    (match getCommonAncestor (doc_root e) (getFirstRange (doc_selection e)) with
     | Some a => nodeName a
     | None => None
     end = Some "paragraph"%string).

(** Units in one flat range: the items of the shallow, single-character walk
    that leaves element ends out. *)
Definition unitsIn (n : Node) (r : Range) : nat :=
  count (getWalker n countingWalk r).

(** What the content remover returns when [execute] calls it: the new tree,
    the live selection as it followed, and the working selection. *)
Definition deleted (direction : Direction) (options : Options) (e : Editor)
  : Node * Selection * Selection :=
  deleteContent (doc_root e) (doc_selection e)
                (extendedSelection direction options e)
                (isCollapsed (workingSelection e)).

End Observations.

(** The counts handed to the buffer's [input], oldest first. *)
Definition reported (events : list Event) : list nat :=
  flat_map (fun ev => match ev with EvInput n => [n] | _ => [] end) events.

(** The calls of the content remover: selection and flag, oldest first. *)
Definition removals (events : list Event) : list (Selection * bool) :=
  flat_map (fun ev => match ev with
                      | EvDeleteContent s flag => [(s, flag)]
                      | _ => []
                      end) events.

(** Events by which the command itself rewrites the live selection. *)
Definition updatesLiveSelection (ev : Event) : bool :=
  match ev with
  | EvSetRanges _ _ | EvCollapse _ => true
  | _ => false
  end.

(** Events by which the command changes the tree. *)
Definition changesContent (ev : Event) : bool :=
  match ev with
  | EvDeleteContent _ _ | EvBatch _ => true
  | _ => false
  end.

(** The empty paragraph the command creates. *)
Definition newParagraph : Node := Element "paragraph" [].

(** The calls of the selection-extension service: direction and unit. *)
Definition extensions (events : list Event) : list (Direction * option string) :=
  flat_map (fun ev => match ev with
                      | EvModifySelection d u => [(d, u)]
                      | _ => []
                      end) events.

Definition isLock (ev : Event) : bool :=
  match ev with EvLock => true | _ => false end.

Definition isUnlock (ev : Event) : bool :=
  match ev with EvUnlock => true | _ => false end.

End Observations.

(** * Facts about the document model *)

Module ModelFacts.

Import Model.

Lemma getNodeByPath_updateChildren f p : forall n nm cs,
  getNodeByPath n p = Some (Element nm cs) ->
  getNodeByPath (updateChildren f p n) p = Some (Element nm (f cs)).
Proof.
  induction p as [|i p IH]; intros n nm cs Hn; simpl in *.
  - inversion Hn; subst. reflexivity.
  - destruct n as [c|nm' cs']; simpl in *.
    + destruct i; discriminate.
    + rewrite list_lookup_alter_eq.
      destruct (cs' !! i) as [c|] eqn:Hi; [|discriminate].
      simpl. apply IH. exact Hn.
Qed.

(** Only the value of the rewriting function on the children actually found
    at the path matters. *)
Lemma updateChildren_ext f g p : forall n,
  (forall el, getNodeByPath n p = Some el -> f (nodeChildren el) = g (nodeChildren el)) ->
  updateChildren f p n = updateChildren g p n.
Proof.
  induction p as [|i p IH]; intros n Hfg; destruct n as [c|nm cs]; simpl in *;
    try reflexivity.
  - f_equal. exact (Hfg _ eq_refl).
  - f_equal. apply list_alter_ext; [|reflexivity].
    intros x Hx. apply IH. intros el Hel. apply Hfg. rewrite Hx. exact Hel.
Qed.

Lemma updateChildren_id p : forall n, updateChildren (fun cs => cs) p n = n.
Proof.
  induction p as [|i p IH]; intros n; destruct n as [c|nm cs]; simpl;
    try reflexivity.
  f_equal. apply list_alter_id. exact IH.
Qed.

Lemma updateChildren_compose f g p : forall n,
  updateChildren g p (updateChildren f p n) = updateChildren (fun cs => g (f cs)) p n.
Proof.
  induction p as [|i p IH]; intros n; destruct n as [c|nm cs]; simpl;
    try reflexivity.
  f_equal. rewrite list_alter_alter_eq. apply list_alter_ext; [|reflexivity].
  intros x _. simpl. apply IH.
Qed.

Lemma offset_snoc (p : Path) (o : nat) : offset (p ++ [o]) = o.
Proof. unfold offset. apply last_last. Qed.

Lemma parentPath_snoc (p : Path) (o : nat) : parentPath (p ++ [o]) = p.
Proof. unfold parentPath. apply removelast_last. Qed.

Lemma length_removelast {A} (l : list A) : length (removelast l) = length l - 1.
Proof.
  induction l as [|x l IH]; [reflexivity|].
  destruct l as [|y l]; [reflexivity|].
  change (removelast (x :: y :: l)) with (x :: removelast (y :: l)).
  cbn [length] in *. lia.
Qed.

Lemma length_stepOut (p : Position) : 2 <= length p -> length (stepOut p) = length p - 1.
Proof.
  intros Hp. unfold stepOut, getShiftedBy, sliceLast, parentPath.
  rewrite length_app, !length_removelast. simpl. lia.
Qed.

(** ** The loops have fuel to spare

    The rounds of both loops of [getMinimalFlatRanges] are bounded by the
    path lengths, so the fuel they are given never runs out: any larger
    amount yields the same ranges. *)

Lemma flatUp_fuel (n : Node) (d : nat) : forall fuel pos acc extra,
  length pos <= fuel ->
  flatUp n d (fuel + extra) pos acc = flatUp n d fuel pos acc.
Proof.
  induction fuel as [|fuel IH]; intros pos acc extra Hlen.
  - destruct extra as [|extra]; [reflexivity|]. simpl.
    destruct (Nat.ltb_spec (d + 1) (length pos)); [lia|reflexivity].
  - simpl. destruct (Nat.ltb_spec (d + 1) (length pos)) as [Hdeep|]; [|reflexivity].
    apply IH. rewrite length_stepOut by lia. lia.
Qed.

Lemma flatDown_fuel (rend : Position) : forall fuel pos acc extra,
  S (length rend) - length pos <= fuel ->
  flatDown (fuel + extra) rend pos acc = flatDown fuel rend pos acc.
Proof.
  induction fuel as [|fuel IH]; intros pos acc extra Hlen.
  - destruct extra as [|extra]; [reflexivity|]. simpl.
    destruct (Nat.leb_spec (length pos) (length rend)); [lia|reflexivity].
  - simpl. destruct (Nat.leb_spec (length pos) (length rend)) as [Hin|]; [|reflexivity].
    apply IH. unfold parentPath. rewrite length_app, length_removelast. simpl. lia.
Qed.

Lemma getCommonPath_snoc (p : Path) (a b : nat) :
  getCommonPath (p ++ [a]) (p ++ [b]) = if Nat.eqb a b then p ++ [a] else p.
Proof.
  induction p as [|i p IH]; simpl.
  - destruct (Nat.eqb a b); reflexivity.
  - rewrite Nat.eqb_refl, IH. destruct (Nat.eqb a b); reflexivity.
Qed.

(** The range covering an element's content is flat: it decomposes into
    itself, or into nothing when the element is empty. *)
Lemma getMinimalFlatRanges_createIn (n : Node) (p : Path) :
  getMinimalFlatRanges n (createIn n p) =
    if Nat.eqb (maxOffsetAt n p) 0 then [] else [createIn n p].
Proof.
  unfold getMinimalFlatRanges, createIn, createAt. cbn [r_start r_end].
  set (m := maxOffsetAt n p).
  rewrite getCommonPath_snoc.
  assert (Hup : forall d, length p <= d ->
            flatUp n d (length (p ++ [0])) (p ++ [0]) [] = (p ++ [0], [])).
  { intros d Hd. rewrite length_app. simpl length. rewrite Nat.add_1_r. simpl.
    rewrite length_app. simpl length.
    destruct (Nat.ltb_spec (d + 1) (length p + 1)); [lia|reflexivity]. }
  assert (Hlen : length (if Nat.eqb 0 m then p ++ [0] else p) >= length p).
  { destruct (Nat.eqb 0 m); rewrite ?length_app; simpl; lia. }
  rewrite Hup by exact Hlen.
  cbn [flatDown]. rewrite !length_app. simpl length.
  destruct (Nat.leb_spec (length p + 1) (length p + 1)); [|lia].
  replace (length p + 1 - 1) with (length p) by lia.
  rewrite nth_middle, offset_snoc, parentPath_snoc, Nat.sub_0_r.
  rewrite (Nat.add_1_r (length p)). cbn [flatDown].
  rewrite !length_app. simpl length.
  destruct (Nat.leb_spec (length p + 2) (length p + 1)); [lia|].
  unfold pushFlat, getShiftedBy. rewrite offset_snoc, parentPath_snoc.
  destruct (Nat.eqb m 0); reflexivity.
Qed.

(** Removing the range that covers an element's content empties exactly that
    element. *)
Lemma remove_createIn (n : Node) (p : Path) nm cs :
  getNodeByPath n p = Some (Element nm cs) ->
  remove n (createIn n p) = updateChildren (fun _ => []) p n.
Proof.
  intros Hn. unfold remove. rewrite getMinimalFlatRanges_createIn.
  assert (Hm : maxOffsetAt n p = length cs) by (unfold maxOffsetAt; rewrite Hn; reflexivity).
  rewrite Hm. destruct cs as [|c cs].
  - simpl. rewrite <- (updateChildren_id p n) at 1.
    apply updateChildren_ext. intros el Hel. rewrite Hn in Hel.
    inversion Hel; subst. reflexivity.
  - simpl. unfold removeFlat, createIn, createAt. cbn [r_start r_end].
    rewrite !offset_snoc, parentPath_snoc, Hm.
    apply updateChildren_ext. intros el Hel. rewrite Hn in Hel.
    inversion Hel; subst. cbn [nodeChildren].
    rewrite take_0, Nat.sub_0_r, Nat.add_0_l, drop_all. reflexivity.
Qed.

(** Inserting at the start of an emptied element makes the node its only
    child. *)
Lemma insert_into_emptied (n : Node) (p : Path) (child : Node) nm cs :
  getNodeByPath n p = Some (Element nm cs) ->
  insert (updateChildren (fun _ => []) p n) (p ++ [0]) child =
    updateChildren (fun _ => [child]) p n.
Proof.
  intros Hn. unfold insert. rewrite offset_snoc, parentPath_snoc.
  rewrite updateChildren_compose. reflexivity.
Qed.

(** One item per offset: the shallow single-character walk that skips
    element ends yields as many items as there are nodes to walk. *)
Lemma walkSiblings_shallow_single (o : WalkerOptions) (l : list Node) :
  shallow o = true ->
  length (walkSiblings (walkNode o) true l) = length l.
Proof.
  intros Hs. induction l as [|x l IH]; [reflexivity|].
  destruct x as [c|nm cs].
  - cbn [walkSiblings]. destruct l as [|[c'|nm' cs'] l'].
    + reflexivity.
    + cbn zeta. destruct (walkSiblings (walkNode o) true (Text c' :: l')) as [|[s|s|s] rest] eqn:E;
        cbn [length] in *; rewrite <- IH; reflexivity.
    + cbn [length] in *. rewrite <- IH. reflexivity.
  - cbn [walkSiblings walkNode]. rewrite Hs. cbn [app length]. f_equal. exact IH.
Qed.

(** In a flat range the command counts one unit per offset between the two
    ends, as far as the parent has children there. *)
Lemma count_flat_range (n : Node) (r : Range) :
  count (getWalker n DeleteCommand.countingWalk r) =
    Nat.min (offset (r_end r) - offset (r_start r))
            (maxOffsetAt n (parentPath (r_start r)) - offset (r_start r)).
Proof.
  unfold count, getWalker, maxOffsetAt. cbn [singleCharacters DeleteCommand.countingWalk].
  rewrite walkSiblings_shallow_single by reflexivity.
  rewrite length_take, length_drop.
  destruct (getNodeByPath n (parentPath (r_start r))); reflexivity.
Qed.

Lemma getNodeByPath_app (p q : Path) : forall n,
  getNodeByPath n (p ++ q) =
    match getNodeByPath n p with
    | Some m => getNodeByPath m q
    | None => None
    end.
Proof.
  induction p as [|i p IH]; intros n; [reflexivity|].
  cbn [app getNodeByPath]. destruct (nodeChildren n !! i); [apply IH|reflexivity].
Qed.

(** Rewriting the children of one element is invisible along every path
    that leaves the way to that element. *)
Lemma getNodeByPath_updateChildren_aside f (c : Path) : forall n i j p q,
  i <> j ->
  getNodeByPath (updateChildren f (c ++ i :: p) n) (c ++ j :: q)
  = getNodeByPath n (c ++ j :: q).
Proof.
  induction c as [|k c IH]; intros n i j p q Hij; destruct n as [ch|nm cs];
    try reflexivity.
  - cbn [app updateChildren getNodeByPath nodeChildren].
    rewrite list_lookup_alter_ne by exact Hij. reflexivity.
  - cbn [app updateChildren getNodeByPath nodeChildren].
    rewrite list_lookup_alter_eq. destruct (cs !! k); [|reflexivity].
    cbn. apply IH. exact Hij.
Qed.

Lemma getCommonPath_refl (p : Path) : getCommonPath p p = p.
Proof.
  induction p as [|i p IH]; [reflexivity|].
  cbn. rewrite Nat.eqb_refl, IH. reflexivity.
Qed.

(** A range with both ends in one parent decomposes into itself, or into
    nothing when it is collapsed. *)
Lemma getMinimalFlatRanges_flat (n : Node) (p : Path) (s t : nat) :
  s <= t ->
  getMinimalFlatRanges n (mkRange (p ++ [s]) (p ++ [t])) =
    if Nat.eqb (t - s) 0 then [] else [mkRange (p ++ [s]) (p ++ [t])].
Proof.
  intros Hst. unfold getMinimalFlatRanges. cbn [r_start r_end].
  rewrite getCommonPath_snoc.
  assert (Hup : forall d, length p <= d ->
            flatUp n d (length (p ++ [s])) (p ++ [s]) [] = (p ++ [s], [])).
  { intros d Hd. rewrite length_app. simpl length. rewrite Nat.add_1_r. simpl.
    rewrite length_app. simpl length.
    destruct (Nat.ltb_spec (d + 1) (length p + 1)); [lia|reflexivity]. }
  assert (Hlen : length (if Nat.eqb s t then p ++ [s] else p) >= length p).
  { destruct (Nat.eqb s t); rewrite ?length_app; simpl; lia. }
  rewrite Hup by exact Hlen.
  cbn [flatDown]. rewrite !length_app. simpl length.
  destruct (Nat.leb_spec (length p + 1) (length p + 1)); [|lia].
  replace (length p + 1 - 1) with (length p) by lia.
  rewrite nth_middle, offset_snoc, parentPath_snoc.
  rewrite (Nat.add_1_r (length p)). cbn [flatDown].
  rewrite !length_app. simpl length.
  destruct (Nat.leb_spec (length p + 2) (length p + 1)); [lia|].
  unfold pushFlat, getShiftedBy. rewrite offset_snoc, parentPath_snoc.
  replace (s + (t - s)) with t by lia.
  destruct (Nat.eqb (t - s) 0); reflexivity.
Qed.

End ModelFacts.

(** * What the command does *)

Module Properties.

Import Model.
Import DeleteCommand.
Import Observations.
Import ModelFacts.

Section AnyEngine.

Context `{Services}.

Ltac project := cbn [doc_root doc_selection buffer trace fst snd].

Ltac step_monad :=
  repeat (progress
    (cbv beta iota zeta delta
       [enqueueChanges buffer_lock buffer_unlock buffer_input doc_setRanges
        doc_collapse dataController_modifySelection dataController_deleteContent
        batch_remove batch_insert batch_apply record bind ret gets modify];
     project)).

Lemma isCollapsed_createFromSelection (s : Selection) :
  isCollapsed (createFromSelection s) = isCollapsed s.
Proof. reflexivity. Qed.

Lemma fold_left_add_sum {A} (f : A -> nat) (l : list A) : forall a,
  fold_left (fun acc x => acc + f x) l a = a + sum_list_with f l.
Proof.
  induction l as [|x l IH]; intros a; simpl.
  - lia.
  - rewrite IH. lia.
Qed.

(** ** The two paths through [execute] *)

(** Nothing to delete: after locking and the extension attempt the command
    only decides about, and possibly performs, the replacement. *)
Lemma execute_collapsed_path direction options e :
  isCollapsed (extendedSelection direction options e) = true ->
  execute direction options e =
    (let* replace :=
       _shouldEntireContentBeReplacedWithParagraph (jsOr (opt_sequence options) 1%Z) in
     if replace then _replaceEntireContentWithParagraph else ret tt)
      (entered direction options e).
Proof.
  unfold extendedSelection, entered, extensionEvents, workingSelection, execute.
  intros Hc. step_monad.
  destruct (isCollapsed (createFromSelection (doc_selection e))) eqn:Hw;
    project; rewrite Hc;
    rewrite <- ?app_assoc; reflexivity.
Qed.

(** Something to delete: count, remove, report, move the live selection,
    unlock. *)
Lemma execute_deleting_path direction options e :
  isCollapsed (extendedSelection direction options e) = false ->
  after (execute direction options) e =
    let '(root', live', sel') := deleted direction options e in
    let n := sum_list_with (unitsIn (doc_root e))
               (getMinimalFlatRanges (doc_root e)
                  (getFirstRange (extendedSelection direction options e))) in
    mkEditor root'
      (setRanges (getRanges sel') (isBackward sel') live')
      (unlock (input n (lock (buffer e))))
      (trace e ++ EvLock :: extensionEvents direction options e ++
         [EvDeleteContent (extendedSelection direction options e)
                          (isCollapsed (workingSelection e));
          EvInput n;
          EvSetRanges (getRanges sel') (isBackward sel');
          EvUnlock]).
Proof.
  unfold deleted, extendedSelection, extensionEvents, workingSelection, after, execute.
  intros Hc. step_monad. unfold unitsIn.
  destruct (isCollapsed (createFromSelection (doc_selection e))) eqn:Hw;
    project; rewrite Hc;
    project;
    rewrite fold_left_add_sum, Nat.add_0_l;
    match goal with |- context [deleteContent ?a ?b ?c ?d] =>
      destruct (deleteContent a b c d) as [[root' live'] sel'] end;
    project;
    rewrite <- ?app_assoc; reflexivity.
Qed.

(** The replacement decision reads the tree and the live selection only. *)
Lemma should_reads_document sequence e e' :
  doc_root e' = doc_root e -> doc_selection e' = doc_selection e ->
  result (_shouldEntireContentBeReplacedWithParagraph sequence) e' =
  result (_shouldEntireContentBeReplacedWithParagraph sequence) e.
Proof.
  intros Hr Hs. unfold result, _shouldEntireContentBeReplacedWithParagraph.
  destruct (Z.ltb 1 sequence); [reflexivity|].
  step_monad. rewrite Hr, Hs.
  repeat match goal with |- context [if ?c then _ else _] => destruct c end;
    reflexivity.
Qed.

Lemma should_leaves_editor sequence e :
  after (_shouldEntireContentBeReplacedWithParagraph sequence) e = e.
Proof.
  unfold after, _shouldEntireContentBeReplacedWithParagraph.
  destruct (Z.ltb 1 sequence); [reflexivity|].
  step_monad.
  repeat match goal with |- context [if ?c then _ else _] => destruct c end;
    reflexivity.
Qed.

Lemma should_characterised sequence e :
  result (_shouldEntireContentBeReplacedWithParagraph sequence) e =
    negb (Z.ltb 1 sequence) && spansLimitElement e && paragraphAllowed e
    && negb (commonAncestorIsParagraph e).
Proof.
  unfold result, _shouldEntireContentBeReplacedWithParagraph, spansLimitElement,
    paragraphAllowed, commonAncestorIsParagraph, limitOf.
  destruct (Z.ltb 1 sequence); [reflexivity|].
  step_monad.
  set (t1 := isTouching _ _ (getFirstPosition _)).
  set (t2 := isTouching _ _ (getLastPosition _)).
  set (allowed := schemaCheck _ _).
  set (para := bool_decide _).
  destruct t1, t2, allowed, para; reflexivity.
Qed.

Lemma replace_keeps_buffer e :
  buffer (after _replaceEntireContentWithParagraph e) = buffer e.
Proof. reflexivity. Qed.

(** The fallback never touches the buffer, whichever way it decides. *)
Lemma fallback_keeps_buffer sequence e :
  buffer (after (let* replace := _shouldEntireContentBeReplacedWithParagraph sequence in
                 if replace then _replaceEntireContentWithParagraph else ret tt) e)
  = buffer e.
Proof.
  unfold after, bind.
  pose proof (should_leaves_editor sequence e) as Hs. unfold after in Hs.
  destruct (_shouldEntireContentBeReplacedWithParagraph sequence e) as [b e1].
  cbn [snd] in Hs. subst e1. destruct b; reflexivity.
Qed.

(** X1: on the path that deletes content the lock taken at entry is released:
    the buffer's lock depth after [execute] is what it was before. *)
Lemma execute_deleting_balanced direction options e :
  isCollapsed (extendedSelection direction options e) = false ->
  lockDepth (buffer (after (execute direction options) e)) = lockDepth (buffer e).
Proof.
  intros Hc. rewrite execute_deleting_path by exact Hc.
  destruct (deleted direction options e) as [[root' live'] sel'].
  cbn. lia.
Qed.

(** C1 (what the code does instead): whenever the working selection is still
    collapsed after the extension attempt, [execute] returns early without
    unlocking, so the buffer's lock depth ends one higher than it started:
    the aggregation scope is not balanced on that exit path. *)
Theorem execute_early_return_stays_locked direction options e :
  isCollapsed (extendedSelection direction options e) = true ->
  lockDepth (buffer (after (execute direction options) e)) = S (lockDepth (buffer e)).
Proof.
  intros Hc. unfold after at 1. rewrite execute_collapsed_path by exact Hc.
  pose proof (fallback_keeps_buffer (jsOr (opt_sequence options) 1%Z)
                (entered direction options e)) as Hb.
  unfold after in Hb. rewrite Hb. reflexivity.
Qed.

(** For any number whatsoever, inside the documented domain or not, the
    first test of the predicate is that the sequence number is not greater
    than one; the other three conditions are as below. *)
Lemma should_replace_iff sequence e :
  result (_shouldEntireContentBeReplacedWithParagraph sequence) e = true <->
  ((sequence <= 1)%Z /\ spansLimitElement e = true /\ paragraphAllowed e = true
   /\ commonAncestorIsParagraph e = false).
Proof.
  rewrite should_characterised.
  destruct (Z.ltb_spec 1 sequence) as [Hlt|Hle]; cbn [negb andb].
  - split; [discriminate | intros (Hs & _); lia].
  - rewrite !andb_true_iff, negb_true_iff. intuition.
Qed.

(** C2: for a sequence number of the documented domain (one or more), the
    replacement predicate answers true exactly when all four conditions
    hold: the sequence number is one, the live selection's first position
    touches the limit element's start and its last position touches the
    limit element's end, the schema permits a paragraph inside the limit
    element, and the common ancestor of the live selection's first range is
    not a paragraph; when any of them fails it answers false. *)
Theorem should_replace_iff_documented sequence e :
  (1 <= sequence)%Z ->
  result (_shouldEntireContentBeReplacedWithParagraph sequence) e = true <->
  (sequence = 1%Z /\ spansLimitElement e = true /\ paragraphAllowed e = true
   /\ commonAncestorIsParagraph e = false).
Proof.
  intros Hd. rewrite should_characterised.
  destruct (Z.ltb_spec 1 sequence) as [Hlt|Hle]; cbn [negb andb].
  - split; [discriminate | intros (Hs & _); lia].
  - rewrite !andb_true_iff, negb_true_iff. intuition lia.
Qed.

(** A held key never triggers the replacement. *)
Lemma should_false_on_repeat sequence e :
  (1 < sequence)%Z ->
  result (_shouldEntireContentBeReplacedWithParagraph sequence) e = false.
Proof.
  intros Hs. rewrite should_characterised.
  destruct (Z.ltb_spec 1 sequence); [reflexivity|lia].
Qed.

(** Nothing to delete and no replacement: [execute] stops right after the
    lock and the extension attempt. *)
Lemma execute_without_replacement direction options e :
  isCollapsed (extendedSelection direction options e) = true ->
  result (_shouldEntireContentBeReplacedWithParagraph
            (jsOr (opt_sequence options) 1%Z)) e = false ->
  after (execute direction options) e = entered direction options e.
Proof.
  intros Hc Hno. unfold after.
  rewrite execute_collapsed_path by exact Hc.
  rewrite <- (should_reads_document _ e (entered direction options e)) in Hno
    by reflexivity.
  pose proof (should_leaves_editor (jsOr (opt_sequence options) 1%Z)
                (entered direction options e)) as Hs.
  unfold result in Hno. unfold after in Hs. unfold bind.
  destruct (_shouldEntireContentBeReplacedWithParagraph _ (entered direction options e))
    as [b e1].
  cbn [fst snd] in *. subst b e1. reflexivity.
Qed.

(** The lock and the extension attempt neither report a count nor change
    content. *)
Lemma entering_is_silent direction options e (l : list Event) :
  reported (l ++ EvLock :: extensionEvents direction options e) = reported l
  /\ filter (fun ev => changesContent ev = true)
       (l ++ EvLock :: extensionEvents direction options e)
     = filter (fun ev => changesContent ev = true) l.
Proof.
  unfold reported, extensionEvents. rewrite flat_map_app, filter_app.
  destruct (isCollapsed (workingSelection e)); cbn; rewrite !app_nil_r; auto.
Qed.

(** C4: when the working selection is still collapsed after the extension
    attempt and the replacement predicate answers false, which it does for
    every sequence number above one, [execute] leaves the tree and the live
    selection as they were, reports no count, changes no content, and only
    the lock and the extension attempt appear among its calls. *)
Theorem execute_nothing_to_delete direction options e :
  isCollapsed (extendedSelection direction options e) = true ->
  (result (_shouldEntireContentBeReplacedWithParagraph
             (jsOr (opt_sequence options) 1%Z)) e = false
   \/ exists sequence, opt_sequence options = Some sequence /\ (1 < sequence)%Z) ->
  let e' := after (execute direction options) e in
  doc_root e' = doc_root e
  /\ doc_selection e' = doc_selection e
  /\ size (buffer e') = size (buffer e)
  /\ trace e' = trace e ++ EvLock :: extensionEvents direction options e
  /\ reported (trace e') = reported (trace e)
  /\ filter (fun ev => changesContent ev = true) (trace e')
     = filter (fun ev => changesContent ev = true) (trace e).
Proof.
  intros Hc Hno e'. subst e'.
  assert (Hfalse : result (_shouldEntireContentBeReplacedWithParagraph
                             (jsOr (opt_sequence options) 1%Z)) e = false).
  { destruct Hno as [Hno | (sequence & Hopt & Hs)]; [exact Hno|].
    apply should_false_on_repeat. rewrite Hopt. cbn.
    destruct (Z.eqb_spec sequence 0); lia. }
  rewrite (execute_without_replacement direction options e Hc Hfalse).
  unfold entered. project.
  destruct (entering_is_silent direction options e (trace e)) as [Hr Hf].
  repeat split; assumption.
Qed.

(** C10: evaluating the replacement predicate changes nothing: the tree, the
    live selection, the change buffer and the record of calls are the same
    after it as before, whatever it answers. *)
Theorem should_is_read_only sequence e :
  after (_shouldEntireContentBeReplacedWithParagraph sequence) e = e
  /\ doc_root (after (_shouldEntireContentBeReplacedWithParagraph sequence) e) = doc_root e
  /\ doc_selection (after (_shouldEntireContentBeReplacedWithParagraph sequence) e)
     = doc_selection e
  /\ buffer (after (_shouldEntireContentBeReplacedWithParagraph sequence) e) = buffer e.
Proof.
  rewrite should_leaves_editor. repeat split.
Qed.

(** What the replacement does to an editor whose limit element is in the
    tree. *)
Lemma replace_outcome e nm cs :
  getNodeByPath (doc_root e) (limitOf e) = Some (Element nm cs) ->
  let e' := after _replaceEntireContentWithParagraph e in
  doc_root e' = updateChildren (fun _ => [newParagraph]) (limitOf e) (doc_root e)
  /\ doc_selection e' = mkSelection (mkRange (limitOf e ++ [0; 0]) (limitOf e ++ [0; 0])) [] false
  /\ buffer e' = buffer e
  /\ trace e' = trace e ++
       [EvBatch (OpRemove (createIn (doc_root e) (limitOf e)));
        EvBatch (OpInsert (limitOf e ++ [0]) newParagraph);
        EvCollapse (limitOf e ++ [0; 0])].
Proof.
  intros Hn e'. subst e'.
  unfold after, _replaceEntireContentWithParagraph, limitOf in *.
  step_monad. cbn [applyOperation createAt].
  rewrite (remove_createIn _ _ nm cs Hn).
  rewrite (insert_into_emptied _ _ _ nm cs Hn).
  rewrite <- !app_assoc. cbn [app].
  repeat split.
Qed.

(** C3: when nothing can be deleted and the replacement predicate answers
    true, [execute] removes the range covering the limit element's content,
    inserts one new empty paragraph at the limit element's start, which is
    then the limit element's only child while the rest of the tree is as
    before, and collapses the live selection inside that paragraph. *)
Theorem execute_replaces_entire_content direction options e nm cs :
  isCollapsed (extendedSelection direction options e) = true ->
  result (_shouldEntireContentBeReplacedWithParagraph
            (jsOr (opt_sequence options) 1%Z)) e = true ->
  getNodeByPath (doc_root e) (limitOf e) = Some (Element nm cs) ->
  let e' := after (execute direction options) e in
  let inside := limitOf e ++ [0; 0] in
  getNodeByPath (doc_root e') (limitOf e) = Some (Element nm [Element "paragraph" []])
  /\ doc_root e' = updateChildren (fun _ => [Element "paragraph" []]) (limitOf e) (doc_root e)
  /\ doc_selection e' = mkSelection (mkRange inside inside) [] false
  /\ isCollapsed (doc_selection e') = true
  /\ trace e' = trace e ++ EvLock :: extensionEvents direction options e ++
       [EvBatch (OpRemove (createIn (doc_root e) (limitOf e)));
        EvBatch (OpInsert (createAt (doc_root e) (limitOf e) AtStart)
                          (Element "paragraph" []));
        EvCollapse inside].
Proof.
  intros Hc Hyes Hn e' inside. subst e' inside. unfold after.
  rewrite execute_collapsed_path by exact Hc.
  rewrite <- (should_reads_document _ e (entered direction options e)) in Hyes
    by reflexivity.
  pose proof (should_leaves_editor (jsOr (opt_sequence options) 1%Z)
                (entered direction options e)) as Hs.
  unfold result in Hyes. unfold after in Hs. unfold bind.
  destruct (_shouldEntireContentBeReplacedWithParagraph _ (entered direction options e))
    as [b e1].
  cbn [fst snd] in *. subst b e1.
  destruct (replace_outcome (entered direction options e) nm cs Hn)
    as (Hroot & Hsel & _ & Htrace).
  unfold after, limitOf, newParagraph in *. cbn [entered doc_root doc_selection trace] in *.
  rewrite Hroot, Hsel, Htrace.
  split; [|split; [|split; [|split]]].
  - exact (getNodeByPath_updateChildren (fun _ => [Element "paragraph" []])
             _ _ nm cs Hn).
  - reflexivity.
  - reflexivity.
  - unfold isCollapsed, rangeIsCollapsed, isEqual. cbn.
    apply bool_decide_eq_true_2. reflexivity.
  - rewrite <- app_assoc. reflexivity.
Qed.

(** C5: on the path that deletes content, the one count handed to the buffer
    is the sum, over the minimal flat ranges of the working selection's first
    range, of the items of the shallow single-character walk without element
    ends; the buffer grows by that sum.  The sum is taken flat range by flat
    range, so it is additive over them. *)
Theorem execute_reports_sum_of_flat_ranges direction options e :
  isCollapsed (extendedSelection direction options e) = false ->
  let e' := after (execute direction options) e in
  let flat := getMinimalFlatRanges (doc_root e)
                (getFirstRange (extendedSelection direction options e)) in
  let units := fun r => count (getWalker (doc_root e)
                 {| singleCharacters := true; ignoreElementEnd := true; shallow := true |} r) in
  reported (trace e') = reported (trace e) ++ [sum_list_with units flat]
  /\ buffer e' = unlock (input (sum_list_with units flat) (lock (buffer e)))
  /\ forall front back, flat = front ++ back ->
       sum_list_with units flat = sum_list_with units front + sum_list_with units back.
Proof.
  intros Hc e' flat units. subst e'.
  rewrite execute_deleting_path by exact Hc.
  destruct (deleted direction options e) as [[root' live'] sel'].
  project. fold flat. change (unitsIn (doc_root e)) with units.
  split; [|split].
  - unfold reported, extensionEvents. rewrite flat_map_app.
    destruct (isCollapsed (workingSelection e)); reflexivity.
  - reflexivity.
  - intros front back ->. apply sum_list_with_app.
Qed.

(** C6: the flag handed to the content remover is the collapsed state of the
    selection as it was before the extension attempt.  When the selection
    started collapsed and the extension made it non-collapsed, the remover
    is called once, with the non-collapsed selection and the flag set. *)
Theorem execute_passes_initial_collapsed_state direction options e :
  isCollapsed (extendedSelection direction options e) = false ->
  let e' := after (execute direction options) e in
  removals (trace e') =
    removals (trace e) ++
      [(extendedSelection direction options e, isCollapsed (doc_selection e))]
  /\ (isCollapsed (doc_selection e) = true ->
      removals (trace e') =
        removals (trace e) ++
          [(modifySelection (doc_root e) (createFromSelection (doc_selection e))
                            direction (opt_unit options), true)]
      /\ doc_root e' =
           fst (fst (deleteContent (doc_root e) (doc_selection e)
                       (modifySelection (doc_root e)
                          (createFromSelection (doc_selection e))
                          direction (opt_unit options)) true))).
Proof.
  intros Hc e'. subst e'.
  rewrite execute_deleting_path by exact Hc.
  assert (Hrem : forall n rs b,
    removals (trace e ++ EvLock :: extensionEvents direction options e ++
          [EvDeleteContent (extendedSelection direction options e)
                           (isCollapsed (workingSelection e));
           EvInput n; EvSetRanges rs b; EvUnlock])
    = removals (trace e) ++
        [(extendedSelection direction options e, isCollapsed (doc_selection e))]).
  { intros. unfold removals, extensionEvents. rewrite flat_map_app.
    unfold workingSelection. rewrite isCollapsed_createFromSelection.
    destruct (isCollapsed (doc_selection e)); reflexivity. }
  unfold deleted.
  split.
  - destruct (deleteContent _ _ _ _) as [[root' live'] sel']. project. apply Hrem.
  - intros Hwas. revert Hrem. unfold extendedSelection, workingSelection.
    rewrite isCollapsed_createFromSelection, Hwas. intros Hrem.
    destruct (deleteContent _ _ _ _) as [[root' live'] sel']. project. split.
    + apply Hrem.
    + reflexivity.
Qed.

(** C7: on the path that deletes content the calls come in a fixed order:
    the content remover first, then the report to the buffer, then the update
    of the live selection with the ranges and direction of the working
    selection as the remover left it; nothing before the remover rewrites the
    live selection, nothing after it changes the tree, and the remover sees
    the live selection as it was when [execute] was called. *)
Theorem execute_orders_mutations direction options e :
  isCollapsed (extendedSelection direction options e) = false ->
  let e' := after (execute direction options) e in
  let removed := deleteContent (doc_root e) (doc_selection e)
                   (extendedSelection direction options e)
                   (isCollapsed (workingSelection e)) in
  let working := snd removed in
  exists before n,
    trace e' = trace e ++ before ++
      [EvDeleteContent (extendedSelection direction options e)
                       (isCollapsed (workingSelection e));
       EvInput n;
       EvSetRanges (getRanges working) (isBackward working);
       EvUnlock]
    /\ Forall (fun ev => updatesLiveSelection ev = false /\ changesContent ev = false) before
    /\ doc_root e' = fst (fst removed)
    /\ doc_selection e' =
         setRanges (getRanges working) (isBackward working) (snd (fst removed)).
Proof.
  intros Hc e' removed working. subst e' working removed.
  rewrite execute_deleting_path by exact Hc. unfold deleted.
  destruct (deleteContent _ _ _ _) as [[root' live'] sel']. project.
  exists (EvLock :: extensionEvents direction options e). eexists.
  split; [reflexivity|]. split; [|split; reflexivity].
  unfold extensionEvents.
  destruct (isCollapsed (workingSelection e)); repeat constructor.
Qed.

(** C8: for a selection that is not collapsed when [execute] is called, the
    unit option has no influence: two runs that differ only in it end in the
    same editor (tree, live selection, buffer) after the same calls. *)
Theorem execute_ignores_unit_when_not_collapsed direction unit1 unit2 sequence e :
  isCollapsed (doc_selection e) = false ->
  execute direction (mkOptions unit1 sequence) e
  = execute direction (mkOptions unit2 sequence) e.
Proof.
  intros Hc. unfold execute. step_monad.
  rewrite isCollapsed_createFromSelection, Hc. reflexivity.
Qed.


(** ** Further properties of [execute] and its helpers *)

(** The calls of the replacement, whatever the tree looks like. *)
Lemma replace_trace e :
  trace (after _replaceEntireContentWithParagraph e) =
    trace e ++
      [EvBatch (OpRemove (createIn (doc_root e) (limitOf e)));
       EvBatch (OpInsert (limitOf e ++ [0]) newParagraph);
       EvCollapse (limitOf e ++ [0; 0])].
Proof.
  unfold after, _replaceEntireContentWithParagraph, limitOf.
  step_monad. cbn [createAt]. rewrite <- !app_assoc. reflexivity.
Qed.

(** Nothing to delete: the run ends in the editor as entered, or in what the
    replacement makes of it. *)
Lemma execute_collapsed_cases direction options e :
  isCollapsed (extendedSelection direction options e) = true ->
  after (execute direction options) e =
    if result (_shouldEntireContentBeReplacedWithParagraph
                 (jsOr (opt_sequence options) 1%Z)) e
    then after _replaceEntireContentWithParagraph (entered direction options e)
    else entered direction options e.
Proof.
  intros Hc. unfold after at 1. rewrite execute_collapsed_path by exact Hc.
  rewrite <- (should_reads_document _ e (entered direction options e)) by reflexivity.
  pose proof (should_leaves_editor (jsOr (opt_sequence options) 1%Z)
                (entered direction options e)) as Hs.
  unfold result, after in *. unfold bind.
  destruct (_shouldEntireContentBeReplacedWithParagraph _ (entered direction options e))
    as [b e1].
  cbn [fst snd] in *. subst e1. destruct b; reflexivity.
Qed.

(** The predicate looks at the sequence number only to see whether it is
    above one. *)
Lemma should_threshold s1 s2 :
  Z.ltb 1 s1 = Z.ltb 1 s2 ->
  _shouldEntireContentBeReplacedWithParagraph s1
  = _shouldEntireContentBeReplacedWithParagraph s2.
Proof.
  intros Hs. unfold _shouldEntireContentBeReplacedWithParagraph. rewrite Hs.
  reflexivity.
Qed.

(** After the replacement the live selection sits in a paragraph. *)
Lemma replaced_selection_in_paragraph e nm cs :
  getNodeByPath (doc_root e) (limitOf e) = Some (Element nm cs) ->
  commonAncestorIsParagraph (after _replaceEntireContentWithParagraph e) = true.
Proof.
  intros Hn.
  destruct (replace_outcome e nm cs Hn) as (Hroot & Hsel & _).
  unfold commonAncestorIsParagraph. rewrite Hroot, Hsel.
  unfold getFirstRange, getCommonAncestor. cbn [sel_more sel_range fold_left r_start r_end].
  replace (limitOf e ++ [0; 0]) with ((limitOf e ++ [0]) ++ [0])
    by (rewrite <- app_assoc; reflexivity).
  rewrite parentPath_snoc, getCommonPath_refl, getNodeByPath_app.
  rewrite (getNodeByPath_updateChildren (fun _ => [newParagraph]) _ _ nm cs Hn).
  apply bool_decide_eq_true_2. reflexivity.
Qed.

(** X2: [execute] uses the sequence option only to tell a repeat (above one)
    from a first press: two runs whose sequence options fall on the same side
    of that test, after the default is filled in, are equal. *)
Theorem execute_sequence_only_tells_repeats direction unit s1 s2 e :
  Z.ltb 1 (jsOr s1 1%Z) = Z.ltb 1 (jsOr s2 1%Z) ->
  execute direction (mkOptions unit s1) e = execute direction (mkOptions unit s2) e.
Proof.
  intros Hs. unfold execute. cbn [opt_sequence opt_unit].
  rewrite (should_threshold _ _ Hs). reflexivity.
Qed.

(** X3: when there is content to delete, the sequence option plays no part:
    runs that differ only in it are equal. *)
Theorem execute_deleting_ignores_sequence direction unit s1 s2 e :
  isCollapsed (extendedSelection direction (mkOptions unit s1) e) = false ->
  execute direction (mkOptions unit s1) e = execute direction (mkOptions unit s2) e.
Proof.
  unfold extendedSelection, workingSelection, execute. cbn [opt_unit].
  intros Hc. step_monad.
  destruct (isCollapsed (createFromSelection (doc_selection e))) eqn:Hw;
    project; rewrite Hc; reflexivity.
Qed.

(** X4: after a deletion the live selection has exactly the ranges, the
    direction and the collapsed state of the working selection as the
    content remover left it. *)
Theorem execute_deleting_copies_working_selection direction options e :
  isCollapsed (extendedSelection direction options e) = false ->
  let e' := after (execute direction options) e in
  let working := snd (deleted direction options e) in
  getRanges (doc_selection e') = getRanges working
  /\ isBackward (doc_selection e') = isBackward working
  /\ isCollapsed (doc_selection e') = isCollapsed working.
Proof.
  intros Hc e' working. subst e' working.
  rewrite execute_deleting_path by exact Hc.
  destruct (deleted direction options e) as [[root' live'] sel'].
  repeat split.
Qed.

(** X5: once the replacement has taken place, the predicate answers false on
    the resulting editor for every sequence number: the live selection now
    sits in a paragraph. *)
Theorem replacement_is_not_repeated direction options e nm cs sequence :
  isCollapsed (extendedSelection direction options e) = true ->
  result (_shouldEntireContentBeReplacedWithParagraph
            (jsOr (opt_sequence options) 1%Z)) e = true ->
  getNodeByPath (doc_root e) (limitOf e) = Some (Element nm cs) ->
  result (_shouldEntireContentBeReplacedWithParagraph sequence)
         (after (execute direction options) e) = false.
Proof.
  intros Hc Hyes Hn.
  rewrite (execute_collapsed_cases direction options e Hc), Hyes.
  rewrite should_characterised.
  rewrite (replaced_selection_in_paragraph (entered direction options e) nm cs Hn).
  cbn [negb]. rewrite andb_false_r. reflexivity.
Qed.

(** X6: a second [execute] right after a replacement, with any direction and
    options, changes neither the tree nor the live selection as long as the
    selection again cannot be extended. *)
Theorem execute_again_after_replacement direction options direction2 options2 e nm cs :
  isCollapsed (extendedSelection direction options e) = true ->
  result (_shouldEntireContentBeReplacedWithParagraph
            (jsOr (opt_sequence options) 1%Z)) e = true ->
  getNodeByPath (doc_root e) (limitOf e) = Some (Element nm cs) ->
  let e' := after (execute direction options) e in
  isCollapsed (extendedSelection direction2 options2 e') = true ->
  let e'' := after (execute direction2 options2) e' in
  doc_root e'' = doc_root e' /\ doc_selection e'' = doc_selection e'.
Proof.
  intros Hc Hyes Hn e' Hc2 e''. subst e''.
  assert (Hno : result (_shouldEntireContentBeReplacedWithParagraph
                          (jsOr (opt_sequence options2) 1%Z)) e' = false).
  { subst e'. rewrite (execute_collapsed_cases direction options e Hc), Hyes.
    rewrite should_characterised.
    rewrite (replaced_selection_in_paragraph (entered direction options e) nm cs Hn).
    cbn [negb]. rewrite andb_false_r. reflexivity. }
  rewrite (execute_without_replacement direction2 options2 e' Hc2 Hno).
  split; reflexivity.
Qed.

(** X7: the replacement stays inside the limit element: every path that
    leaves the way to the limit element leads to the same node after
    [execute] as before. *)
Theorem execute_replacement_stays_in_limit direction options e nm cs common i j below aside :
  isCollapsed (extendedSelection direction options e) = true ->
  result (_shouldEntireContentBeReplacedWithParagraph
            (jsOr (opt_sequence options) 1%Z)) e = true ->
  getNodeByPath (doc_root e) (limitOf e) = Some (Element nm cs) ->
  limitOf e = common ++ i :: below ->
  i <> j ->
  getNodeByPath (doc_root (after (execute direction options) e)) (common ++ j :: aside)
  = getNodeByPath (doc_root e) (common ++ j :: aside).
Proof.
  intros Hc Hyes Hn Hlimit Hij.
  rewrite (execute_collapsed_cases direction options e Hc), Hyes.
  destruct (replace_outcome (entered direction options e) nm cs Hn) as (Hroot & _).
  rewrite Hroot. unfold limitOf in *. cbn [entered doc_root doc_selection].
  rewrite Hlimit. apply getNodeByPath_updateChildren_aside. exact Hij.
Qed.

(** X8: when the first range of the selection to delete lies in one parent,
    from offset [s] to offset [t] with the parent holding at least [t]
    children, the count handed to the buffer is [t - s]. *)
Theorem execute_reports_offsets_of_flat_selection direction options e parent s t :
  isCollapsed (extendedSelection direction options e) = false ->
  getFirstRange (extendedSelection direction options e)
    = mkRange (parent ++ [s]) (parent ++ [t]) ->
  s <= t ->
  t <= maxOffsetAt (doc_root e) parent ->
  reported (trace (after (execute direction options) e))
  = reported (trace e) ++ [t - s].
Proof.
  intros Hc Hflat Hst Hmax.
  rewrite execute_deleting_path by exact Hc.
  destruct (deleted direction options e) as [[root' live'] sel'].
  project. rewrite Hflat, getMinimalFlatRanges_flat by exact Hst.
  assert (Hsum : sum_list_with (unitsIn (doc_root e))
                   (if Nat.eqb (t - s) 0 then []
                    else [mkRange (parent ++ [s]) (parent ++ [t])]) = t - s).
  { destruct (Nat.eqb_spec (t - s) 0) as [Hz|Hnz]; [cbn; lia|].
    cbn [sum_list_with]. unfold unitsIn. rewrite count_flat_range.
    cbn [r_start r_end]. rewrite !offset_snoc, parentPath_snoc. lia. }
  rewrite Hsum.
  unfold reported, extensionEvents. rewrite flat_map_app.
  destruct (isCollapsed (workingSelection e)); reflexivity.
Qed.

(** X9: for a selection that is not collapsed when [execute] is called, the
    command's direction has no influence: the forward and the backward
    command do the same. *)
Theorem execute_ignores_direction_when_not_collapsed direction1 direction2 options e :
  isCollapsed (doc_selection e) = false ->
  execute direction1 options e = execute direction2 options e.
Proof.
  intros Hc. unfold execute. step_monad.
  rewrite isCollapsed_createFromSelection, Hc. reflexivity.
Qed.

(** X10: [execute] calls the content remover at most once, and never with a
    collapsed selection. *)
Theorem execute_never_removes_collapsed direction options e :
  exists calls,
    removals (trace (after (execute direction options) e)) = removals (trace e) ++ calls
    /\ length calls <= 1
    /\ Forall (fun call => isCollapsed (fst call) = false) calls.
Proof.
  destruct (isCollapsed (extendedSelection direction options e)) eqn:Hc.
  - exists []. split; [|split; [cbn; lia | constructor]].
    rewrite (execute_collapsed_cases direction options e Hc).
    assert (He : removals (trace (entered direction options e)) = removals (trace e)).
    { unfold entered, removals, extensionEvents. project. rewrite flat_map_app.
      destruct (isCollapsed (workingSelection e)); cbn; rewrite app_nil_r; reflexivity. }
    destruct (result _ e).
    + rewrite replace_trace. unfold removals in *. rewrite flat_map_app, He.
      reflexivity.
    + rewrite He, app_nil_r. reflexivity.
  - exists [(extendedSelection direction options e, isCollapsed (workingSelection e))].
    split; [|split; [cbn; lia | repeat constructor; exact Hc]].
    rewrite execute_deleting_path by exact Hc.
    destruct (deleted direction options e) as [[root' live'] sel']. project.
    unfold removals, extensionEvents. rewrite flat_map_app.
    destruct (isCollapsed (workingSelection e)); reflexivity.
Qed.

(** X11: [execute] asks for the selection to be extended exactly when the
    live selection is collapsed at the call, once, with the command's
    direction and the unit option as given. *)
Theorem execute_extends_iff_collapsed direction options e :
  extensions (trace (after (execute direction options) e)) =
    extensions (trace e) ++
      (if isCollapsed (doc_selection e) then [(direction, opt_unit options)] else []).
Proof.
  assert (He : extensions (trace (entered direction options e)) =
               extensions (trace e) ++
                 (if isCollapsed (doc_selection e)
                  then [(direction, opt_unit options)] else [])).
  { unfold entered, extensions, extensionEvents, workingSelection. project.
    rewrite flat_map_app, isCollapsed_createFromSelection.
    destruct (isCollapsed (doc_selection e)); reflexivity. }
  destruct (isCollapsed (extendedSelection direction options e)) eqn:Hc.
  - rewrite (execute_collapsed_cases direction options e Hc).
    destruct (result _ e); [|exact He].
    rewrite replace_trace. unfold extensions in *.
    rewrite flat_map_app, He. cbn. rewrite app_nil_r. reflexivity.
  - rewrite execute_deleting_path by exact Hc.
    destruct (deleted direction options e) as [[root' live'] sel']. project.
    unfold extensions, extensionEvents, workingSelection.
    rewrite flat_map_app, isCollapsed_createFromSelection.
    destruct (isCollapsed (doc_selection e)); reflexivity.
Qed.

(** X12: a selection that is not collapsed when [execute] is called always
    goes to the content remover, unextended and with the flag
    [doNotResetEntireContent] off; the tree afterwards is the remover's. *)
Theorem execute_selected_content_is_removed direction options e :
  isCollapsed (doc_selection e) = false ->
  let e' := after (execute direction options) e in
  removals (trace e') =
    removals (trace e) ++ [(createFromSelection (doc_selection e), false)]
  /\ doc_root e' =
       fst (fst (deleteContent (doc_root e) (doc_selection e)
                   (createFromSelection (doc_selection e)) false))
  /\ filter (fun ev => updatesLiveSelection ev = true) (trace e')
     = filter (fun ev => updatesLiveSelection ev = true) (trace e) ++
       [EvSetRanges
          (getRanges (snd (deleteContent (doc_root e) (doc_selection e)
                             (createFromSelection (doc_selection e)) false)))
          (isBackward (snd (deleteContent (doc_root e) (doc_selection e)
                              (createFromSelection (doc_selection e)) false)))].
Proof.
  intros Hw e'. subst e'.
  assert (Hc : isCollapsed (extendedSelection direction options e) = false).
  { unfold extendedSelection, workingSelection.
    rewrite isCollapsed_createFromSelection, Hw. exact Hw. }
  rewrite execute_deleting_path by exact Hc.
  unfold deleted, extendedSelection, extensionEvents, workingSelection.
  rewrite isCollapsed_createFromSelection, Hw.
  destruct (deleteContent _ _ _ _) as [[root' live'] sel']. project.
  unfold removals. rewrite flat_map_app, filter_app. repeat split.
Qed.

(** X13: when there is nothing to delete, replacement or not, [execute]
    reports no count, leaves the buffer's running size alone and never calls
    the content remover. *)
Theorem execute_early_return_reports_nothing direction options e :
  isCollapsed (extendedSelection direction options e) = true ->
  let e' := after (execute direction options) e in
  reported (trace e') = reported (trace e)
  /\ size (buffer e') = size (buffer e)
  /\ removals (trace e') = removals (trace e).
Proof.
  intros Hc e'. subst e'.
  rewrite (execute_collapsed_cases direction options e Hc).
  assert (He : reported (trace (entered direction options e)) = reported (trace e)
               /\ removals (trace (entered direction options e)) = removals (trace e)).
  { unfold entered, reported, removals, extensionEvents. project.
    rewrite !flat_map_app.
    destruct (isCollapsed (workingSelection e)); cbn; rewrite !app_nil_r; auto. }
  destruct He as [Hr Hd].
  destruct (result _ e).
  - rewrite replace_trace, replace_keeps_buffer. unfold reported, removals in *.
    rewrite !flat_map_app, Hr, Hd. cbn. rewrite !app_nil_r. repeat split.
  - repeat split; assumption.
Qed.

(** X14: every run of [execute] starts by locking the buffer and locks it
    only once; it unlocks at most once, as its last call. *)
Theorem execute_locks_first_and_once direction options e :
  exists rest,
    trace (after (execute direction options) e) = trace e ++ EvLock :: rest
    /\ filter (fun ev => isLock ev = true) rest = []
    /\ (filter (fun ev => isUnlock ev = true) rest = []
        \/ exists calls, rest = calls ++ [EvUnlock]
                         /\ filter (fun ev => isUnlock ev = true) calls = []).
Proof.
  destruct (isCollapsed (extendedSelection direction options e)) eqn:Hc.
  - rewrite (execute_collapsed_cases direction options e Hc).
    destruct (result _ e).
    + rewrite replace_trace. unfold entered. project.
      eexists. split; [rewrite <- app_assoc; reflexivity|].
      unfold extensionEvents.
      destruct (isCollapsed (workingSelection e)); split; auto.
    + unfold entered. project. eexists. split; [reflexivity|].
      unfold extensionEvents.
      destruct (isCollapsed (workingSelection e)); split; auto.
  - rewrite execute_deleting_path by exact Hc.
    destruct (deleted direction options e) as [[root' live'] sel']. project.
    eexists. split; [reflexivity|].
    unfold extensionEvents.
    destruct (isCollapsed (workingSelection e)); (split; [reflexivity|]); right.
    + eexists [_; _; _; _]. split; reflexivity.
    + eexists [_; _; _]. split; reflexivity.
Qed.

End AnyEngine.

End Properties.

(** * The command run on concrete documents *)

Module Scenarios.

Import Model.
Import DeleteCommand.
Import Observations.
Import Sample.
Import Properties.

(** ** Scenarios of the specification *)

(** "He[llo] World": three characters go, three units are reported. *)
Example scenario_selected_text :
  let e' := after (execute backward noOptions) helloWorld in
  doc_root e' = rootOf [paragraph "He World"]
  /\ doc_selection e' = caret [0; 2]
  /\ reported (trace e') = [3]
  /\ lockDepth (buffer e') = 0.
Proof. repeat split. Qed.

(** An empty non-paragraph block, key pressed once: replaced. *)
Example scenario_empty_block_replaced :
  let e' := after (execute backward noOptions) emptyHeading in
  doc_root e' = rootOf [paragraph ""] /\ doc_selection e' = caret [0; 0].
Proof. repeat split. Qed.

(** The same with the key held: untouched. *)
Example scenario_held_key_untouched :
  let e' := after (execute backward (withSequence 2)) emptyHeading in
  doc_root e' = doc_root emptyHeading /\ doc_selection e' = doc_selection emptyHeading.
Proof. repeat split. Qed.

(** An empty paragraph is not replaced by another one. *)
Example scenario_empty_paragraph_untouched :
  let e' := after (execute backward noOptions) emptyParagraph in
  doc_root e' = doc_root emptyParagraph
  /\ doc_selection e' = doc_selection emptyParagraph.
Proof. repeat split. Qed.

(** A negative sequence number is truthy, reaches the predicate as it is,
    and does not count as a repeat. *)
Example scenario_negative_sequence_replaces :
  doc_root (after (execute backward (withSequence (-1))) emptyHeading)
  = rootOf [paragraph ""].
Proof. reflexivity. Qed.

(** ** The theorems at concrete inputs *)

Lemma execute_early_return_stays_locked_witness :
  isCollapsed (extendedSelection backward (withSequence 2) emptyHeading) = true
  /\ lockDepth (buffer emptyHeading) = 0
  /\ lockDepth (buffer (after (execute backward (withSequence 2)) emptyHeading)) = 1.
Proof.
  split; [reflexivity|]. split; [reflexivity|].
  apply (execute_early_return_stays_locked backward (withSequence 2) emptyHeading).
  reflexivity.
Defined.

Lemma should_replace_iff_documented_witness :
  (1 <= 1)%Z
  /\ (result (_shouldEntireContentBeReplacedWithParagraph 1%Z) emptyHeading = true <->
      (1%Z = 1%Z /\ spansLimitElement emptyHeading = true
       /\ paragraphAllowed emptyHeading = true
       /\ commonAncestorIsParagraph emptyHeading = false))
  /\ result (_shouldEntireContentBeReplacedWithParagraph 1%Z) emptyHeading = true
  /\ result (_shouldEntireContentBeReplacedWithParagraph 1%Z) emptyParagraph = false.
Proof.
  split; [lia|]. split; [|split; reflexivity].
  apply (should_replace_iff_documented 1%Z emptyHeading). lia.
Defined.

Lemma execute_replaces_entire_content_witness :
  let e' := after (execute backward noOptions) emptyHeading in
  getNodeByPath (doc_root e') [] = Some (Element "$root" [Element "paragraph" []])
  /\ doc_selection e' = mkSelection (mkRange [0; 0] [0; 0]) [] false.
Proof.
  destruct (execute_replaces_entire_content backward noOptions emptyHeading
              "$root" [Element "heading" []])
    as (Hnode & _ & Hsel & _); [reflexivity | reflexivity | reflexivity |].
  split; [exact Hnode | exact Hsel].
Defined.

Lemma execute_nothing_to_delete_witness :
  let e' := after (execute backward (withSequence 2)) emptyHeading in
  doc_root e' = rootOf [Element "heading" []]
  /\ doc_selection e' = caret [0; 0]
  /\ reported (trace e') = [].
Proof.
  destruct (execute_nothing_to_delete backward (withSequence 2) emptyHeading)
    as (Hroot & Hsel & _ & _ & Hrep & _);
    [reflexivity | right; exists 2%Z; split; [reflexivity | lia] |].
  split; [exact Hroot|]. split; [exact Hsel | exact Hrep].
Defined.

Lemma execute_reports_sum_of_flat_ranges_witness :
  reported (trace (after (execute backward noOptions) twoParagraphs)) = [3 + 3].
Proof.
  destruct (execute_reports_sum_of_flat_ranges backward noOptions twoParagraphs)
    as (Hrep & _); [reflexivity|].
  exact Hrep.
Defined.

Lemma execute_passes_initial_collapsed_state_witness :
  isCollapsed (doc_selection caretAfterAbc) = true
  /\ removals (trace (after (execute backward noOptions) caretAfterAbc))
     = [(mkSelection (mkRange [0; 2] [0; 3]) [] true, true)].
Proof.
  split; [reflexivity|].
  destruct (execute_passes_initial_collapsed_state backward noOptions caretAfterAbc)
    as (Hrem & _); [reflexivity|].
  exact Hrem.
Defined.

Lemma execute_orders_mutations_witness :
  exists before n,
    trace (after (execute backward noOptions) helloWorld) =
      before ++
      [EvDeleteContent (mkSelection (mkRange [0; 2] [0; 5]) [] false) false;
       EvInput n;
       EvSetRanges [mkRange [0; 2] [0; 2]] false;
       EvUnlock]
    /\ Forall (fun ev => updatesLiveSelection ev = false /\ changesContent ev = false) before.
Proof.
  destruct (execute_orders_mutations backward noOptions helloWorld)
    as (before & n & Htrace & Hbefore & _); [reflexivity|].
  exists before, n. split; [exact Htrace | exact Hbefore].
Defined.

Lemma execute_ignores_unit_when_not_collapsed_witness :
  execute backward (mkOptions (Some "character"%string) None) helloWorld
  = execute backward (mkOptions (Some "word"%string) None) helloWorld.
Proof.
  apply (execute_ignores_unit_when_not_collapsed backward
           (Some "character"%string) (Some "word"%string) None helloWorld).
  reflexivity.
Defined.

(** ** The further properties at concrete inputs *)

Lemma execute_deleting_balanced_witness :
  lockDepth (buffer (after (execute backward noOptions) helloWorld)) = 0.
Proof.
  apply (execute_deleting_balanced backward noOptions helloWorld). reflexivity.
Defined.

Lemma execute_sequence_only_tells_repeats_witness :
  execute backward (mkOptions None (Some 2%Z)) emptyHeading
  = execute backward (mkOptions None (Some 7%Z)) emptyHeading.
Proof.
  apply (execute_sequence_only_tells_repeats backward None (Some 2%Z) (Some 7%Z)
           emptyHeading).
  reflexivity.
Defined.

Lemma execute_deleting_ignores_sequence_witness :
  execute backward (mkOptions None (Some 1%Z)) helloWorld
  = execute backward (mkOptions None (Some 5%Z)) helloWorld.
Proof.
  apply (execute_deleting_ignores_sequence backward None (Some 1%Z) (Some 5%Z)
           helloWorld).
  reflexivity.
Defined.

Lemma execute_deleting_copies_working_selection_witness :
  let e' := after (execute backward noOptions) helloWorld in
  getRanges (doc_selection e') = [mkRange [0; 2] [0; 2]]
  /\ isBackward (doc_selection e') = false
  /\ isCollapsed (doc_selection e') = true.
Proof.
  destruct (execute_deleting_copies_working_selection backward noOptions helloWorld)
    as (Hranges & Hback & Hcoll); [reflexivity|].
  split; [exact Hranges|]. split; [exact Hback | exact Hcoll].
Defined.

Lemma replacement_is_not_repeated_witness :
  result (_shouldEntireContentBeReplacedWithParagraph 1%Z)
         (after (execute backward noOptions) emptyHeading) = false.
Proof.
  apply (replacement_is_not_repeated backward noOptions emptyHeading
           "$root" [Element "heading" []] 1%Z); reflexivity.
Defined.

Lemma execute_again_after_replacement_witness :
  let e' := after (execute backward noOptions) emptyHeading in
  let e'' := after (execute forward noOptions) e' in
  doc_root e'' = rootOf [paragraph ""] /\ doc_selection e'' = caret [0; 0].
Proof.
  destruct (execute_again_after_replacement backward noOptions forward noOptions
              emptyHeading "$root" [Element "heading" []])
    as (Hroot & Hsel); [reflexivity | reflexivity | reflexivity | reflexivity |].
  split; [exact Hroot | exact Hsel].
Defined.

Lemma execute_replacement_stays_in_limit_witness :
  getNodeByPath
    (doc_root (after (@execute quoteServices backward noOptions) emptyQuote)) [0]
  = Some (paragraph "abc")
  /\ getNodeByPath
       (doc_root (after (@execute quoteServices backward noOptions) emptyQuote)) [1]
     = Some (Element "blockQuote" [Element "paragraph" []]).
Proof.
  split; [|reflexivity].
  apply (@execute_replacement_stays_in_limit quoteServices backward noOptions
           emptyQuote "blockQuote" [Element "heading" []] [] 1 0 [] []);
    [reflexivity | reflexivity | reflexivity | reflexivity | discriminate].
Defined.

Lemma execute_reports_offsets_of_flat_selection_witness :
  reported (trace (after (execute backward noOptions) helloWorld)) = [5 - 2].
Proof.
  apply (execute_reports_offsets_of_flat_selection backward noOptions helloWorld
           [0] 2 5); [reflexivity | reflexivity | lia | cbn; lia].
Defined.

Lemma execute_ignores_direction_when_not_collapsed_witness :
  execute forward noOptions helloWorld = execute backward noOptions helloWorld.
Proof.
  apply (execute_ignores_direction_when_not_collapsed forward backward noOptions
           helloWorld).
  reflexivity.
Defined.

Lemma execute_selected_content_is_removed_witness :
  removals (trace (after (execute backward noOptions) twoParagraphs))
  = [(mkSelection (mkRange [0; 0] [1; 3]) [] false, false)].
Proof.
  destruct (execute_selected_content_is_removed backward noOptions twoParagraphs)
    as (Hrem & _); [reflexivity|].
  exact Hrem.
Defined.

Lemma execute_early_return_reports_nothing_witness :
  let e' := after (execute backward noOptions) emptyHeading in
  doc_root e' = rootOf [paragraph ""]
  /\ reported (trace e') = []
  /\ size (buffer e') = 0
  /\ removals (trace e') = [].
Proof.
  split; [reflexivity|].
  destruct (execute_early_return_reports_nothing backward noOptions emptyHeading)
    as (Hrep & Hsize & Hrem); [reflexivity|].
  split; [exact Hrep|]. split; [exact Hsize | exact Hrem].
Defined.

End Scenarios.
